(** * pswalker: the branching engine of [skywalker.py] and its recovery helpers

    A shallow embedding of [src/pswalker/skywalker.py]:
    - [branching_plan] with its closures [do_branch], [branch_handler] and
      [new_gen], run by bluesky's [plan_mutator];
    - [make_homs_recover], [make_pick_recover], [homs_skywalker];
    - [prune_path] of [pswalker.path], of which only the test is at hand.

    Generators are modelled as explicit program states that are resumed one
    step at a time; the [threading.Lock] is a boolean in the shared world. *)

From Stdlib Require Import List String ZArith QArith Bool Arith Lia Lqa.
Import ListNotations.
Close Scope Q_scope.
Open Scope string_scope.
Open Scope list_scope.

(** ** Messages, exceptions and plans *)

(** A bluesky [Msg]: the command name and the object it addresses. *)
Record Msg := mkMsg { command : string; obj : option string }.

(** The exceptions that occur in this module: the two Python raises on its
    own paths, and whatever terminal failure a plan raises. *)
Inductive exn :=
| IndexError
| AttributeError
| PlanFailure (what : string).

(** A plan in one run: the messages it yields, one per resumption, until it
    returns ([Done], Python's StopIteration) or raises.  Every yield hands
    out a newly built [Msg] object, as bluesky's plan stubs do.
    [Yield m k] is a yield with no [except] clause around it: an exception
    thrown in at it comes straight back out.  [YieldTry m k catches handler]
    is a yield inside [try: ... except ...:]: resumed normally the plan goes
    on as [k]; an exception thrown in at it that the clause catches makes the
    plan go on as [handler], any other comes back out (see [gen_throw]). *)
Inductive plan :=
| Done
| Raise (e : exn)
| Yield (m : Msg) (k : plan)
| YieldTry (m : Msg) (k : plan) (catches : exn -> bool) (handler : plan).

(** [bluesky.plans.checkpoint] and [bluesky.plans.null] are generator
    functions, [return (yield Msg('checkpoint'))] and
    [return (yield Msg('null'))]: calling one gives a generator. *)
Definition checkpoint : plan := Yield (mkMsg "checkpoint" None) Done.
Definition null : plan := Yield (mkMsg "null" None) Done.

(** What a Python [yield] can hand out here: a message, or (by [yield null()])
    a generator object. *)
Inductive pyobj :=
| OMsg (m : Msg)
| OGen (g : plan).

(** Python's [l[i]] on a list: negative indices count from the end, anything
    out of range raises IndexError ([None]). *)
Definition py_getitem {A : Type} (l : list A) (i : Z) : option A :=
  let len := Z.of_nat (List.length l) in
  if (0 <=? i)%Z then nth_error l (Z.to_nat i)
  else if (- len <=? i)%Z then nth_error l (Z.to_nat (len + i))
  else None.

Fixpoint plan_of (msgs : list Msg) (ending : plan) : plan :=
  match msgs with
  | [] => ending
  | m :: rest => Yield m (plan_of rest ending)
  end.

(** The messages of a plan into which nothing is thrown, and their
    number. *)
Fixpoint plan_msgs (p : plan) : list Msg :=
  match p with
  | Yield m k | YieldTry m k _ _ => m :: plan_msgs k
  | _ => []
  end.

Fixpoint plan_length (p : plan) : nat :=
  match p with
  | Yield _ k | YieldTry _ k _ _ => S (plan_length k)
  | _ => O
  end.

(** ** The shared world of one [branching_plan] call *)

(** [lock]: whether [branch_lock] is held.  [calls]: how many times
    [branch_choice] has been called so far. *)
Record world := mkWorld { lock : bool; calls : nat }.

Definition acquire (w : world) : world := mkWorld true (calls w).
Definition release (w : world) : world := mkWorld false (calls w).
Definition tick (w : world) : world := mkWorld (lock w) (S (calls w)).

(** The generators [plan_mutator] keeps on its stack: an ordinary plan
    ([PlanGen p]: it goes on as [p]; [TryGen k catches handler]: it is
    suspended at a yield inside a [try]), or the [new_gen] closure over
    [msg], suspended at one of its yields. *)
Inductive new_gen_pc :=
| AtStart                     (* created, not yet resumed *)
| InCheckpoint (rest : plan)  (* inside [yield from checkpoint()] *)
| InBranch (rest : plan)      (* inside [yield from branch()] of do_branch *)
| AtNull                      (* at [yield null()] of do_branch *)
| AtMsg.                      (* at [yield msg] *)

Inductive gen :=
| PlanGen (p : plan)
| NewGen (msg : Msg) (pc : new_gen_pc)
| TryGen (k : plan) (catches : exn -> bool) (handler : plan).

(** Resuming a generator with [send]. [YieldSeen] is the one yield that hands
    out an object handed out before: [yield msg] of [new_gen]. *)
Inductive resumed :=
| YieldNew (o : pyobj) (g : gen) (w : world)
| YieldSeen (m : Msg) (g : gen) (w : world)
| StopIteration (w : world)
| Raised (e : exn) (w : world)
| Blocked.

(** What a [msg_proc] callback answers: [(head, None)], [(None, None)], or an
    exception of its own. *)
Inductive handled :=
| Replace (head : gen)
| PassThrough
| HandlerRaised (e : exn).

Section BranchingPlan.

(** [branches]: the plan each branch function returns when called.
    [branch_choice n]: what the call number [n] of the zero-argument
    selector returns (it reads live devices, so two calls may differ).
    [branch_msg]: the command to branch on. *)
Variable branches : list plan.
Variable branch_choice : nat -> option Z.
Variable branch_msg : string.

(** [yield from branch()], then [yield msg], inside [with branch_lock:]. *)
Definition run_branch (msg : Msg) (p : plan) (w : world) : resumed :=
  match p with
  | Yield m k | YieldTry m k _ _ =>
      YieldNew (OMsg m) (NewGen msg (InBranch k)) w
  | Done => YieldSeen msg (NewGen msg AtMsg) w
  | Raise e => Raised e (release w)
  end.

(** [do_branch], delegated to from [new_gen]: a second call of
    [branch_choice]; [yield null()] hands out the generator itself. *)
Definition do_branch (msg : Msg) (w : world) : resumed :=
  let choice := branch_choice (calls w) in
  let w := tick w in
  match choice with
  | None => YieldNew (OGen null) (NewGen msg AtNull) w
  | Some c =>
      match py_getitem branches c with
      | None => Raised IndexError (release w)
      | Some branch => run_branch msg branch w
      end
  end.

(** [yield from checkpoint()], then [yield from do_branch()]. *)
Definition after_checkpoint (msg : Msg) (p : plan) (w : world) : resumed :=
  match p with
  | Yield m k | YieldTry m k _ _ =>
      YieldNew (OMsg m) (NewGen msg (InCheckpoint k)) w
  | Done => do_branch msg w
  | Raise e => Raised e (release w)
  end.

(** [new_gen], resumed from the yield [pc]. *)
Definition new_gen (msg : Msg) (pc : new_gen_pc) (w : world) : resumed :=
  match pc with
  | AtStart =>
      if lock w then Blocked   (* [with branch_lock:] waits for ever *)
      else
        let w := acquire w in
        let first := branch_choice (calls w) in
        let w := tick w in
        match first with
        | Some _ => after_checkpoint msg checkpoint w
        | None => YieldSeen msg (NewGen msg AtMsg) w
        end
  | InCheckpoint rest => after_checkpoint msg rest w
  | InBranch rest => run_branch msg rest w
  | AtNull => YieldSeen msg (NewGen msg AtMsg) w
  | AtMsg => StopIteration (release w)
  end.

(** [branch_handler]: [msg.command] fails on a generator object; on the
    branch command a non-blocking acquire, and when it succeeds the
    [finally] clause releases the lock and returns [new_gen(), None]. *)
Definition branch_handler (o : pyobj) (w : world) : handled * world :=
  match o with
  | OGen _ => (HandlerRaised AttributeError, w)
  | OMsg msg =>
      if String.eqb (command msg) branch_msg then
        if lock w then (PassThrough, w)
        else (Replace (NewGen msg AtStart), release (acquire w))
      else (PassThrough, w)
  end.

(** An ordinary plan going on as [p]. *)
Definition plan_send (p : plan) (w : world) : resumed :=
  match p with
  | Done => StopIteration w
  | Raise e => Raised e w
  | Yield m k => YieldNew (OMsg m) (PlanGen k) w
  | YieldTry m k catches handler =>
      YieldNew (OMsg m) (TryGen k catches handler) w
  end.

Definition gen_send (g : gen) (w : world) : resumed :=
  match g with
  | PlanGen p => plan_send p w
  | TryGen k _ _ => plan_send k w
  | NewGen msg pc => new_gen msg pc w
  end.

(** [g.throw(e)].  A plan suspended at a yield inside a [try] whose clause
    catches [e] goes on as its handler; from any other plan [e] comes back
    out.  [new_gen] has no [except] clause: [e] comes back out, and when
    the generator has entered its [with] block the lock is released on the
    way (the [except] clauses a branch may have around its own yields are
    not followed here; no run throws into [new_gen]). *)
Definition gen_throw (g : gen) (e : exn) (w : world) : resumed :=
  match g with
  | PlanGen _ => Raised e w
  | TryGen _ catches handler =>
      if catches e then plan_send handler w else Raised e w
  | NewGen _ AtStart => Raised e w
  | NewGen _ _ => Raised e (release w)
  end.

(** ** bluesky's [plan_mutator]

    Not part of this repository; modelled after its contract: the top
    generator of [plan_stack] is resumed (or has the stashed exception
    thrown in); an exhausted generator is popped; one that raises is popped
    and its exception stashed for the generator below; a message that comes
    out, also out of a throw, clears the stash; every message not handed
    out before goes to [msg_proc], and a [head] it answers is pushed and run
    in place of the message; everything else is yielded out.  The result and
    tail stacks are left out: no value is read back here and
    [branch_handler] never gives a tail. *)
Record state := mkState
  { plan_stack : list gen; exception : option exn; env : world }.

Inductive step_result :=
| Emit (o : pyobj) (s : state)
| Continue (s : state)
| Return (w : world)
| Abort (e : exn) (w : world)
| Deadlock.

Definition pop (below : list gen) (exc : option exn) (w : world)
  : step_result :=
  match below, exc with
  | [], None => Return w
  | [], Some e => Abort e w
  | _ :: _, _ => Continue (mkState below exc w)
  end.

(** What the loop does with the answer of the top generator; [stash] is
    the exception still stashed when the generator is exhausted. *)
Definition resumed_step
    (msg_proc : pyobj -> world -> handled * world) (below : list gen)
    (stash : option exn) (r : resumed) : step_result :=
  match r with
  | Blocked => Deadlock
  | StopIteration w =>
      match below with
      | [] => Return w
      | _ :: _ => Continue (mkState below stash w)
      end
  | Raised e w => pop below (Some e) w
  | YieldSeen m g w => Emit (OMsg m) (mkState (g :: below) None w)
  | YieldNew o g w =>
      match msg_proc o w with
      | (HandlerRaised e, w') => Abort e w'
      | (Replace head, w') => Continue (mkState (head :: g :: below) None w')
      | (PassThrough, w') => Emit o (mkState (g :: below) None w')
      end
  end.

Definition plan_mutator_step
    (msg_proc : pyobj -> world -> handled * world) (s : state)
  : step_result :=
  match plan_stack s with
  | [] => Return (env s)
  | top :: below =>
      match exception s with
      | Some e =>
          resumed_step msg_proc below (Some e) (gen_throw top e (env s))
      | None => resumed_step msg_proc below None (gen_send top (env s))
      end
  end.

Inductive outcome :=
| Returned (w : world)
| Aborted (e : exn) (w : world)
| Deadlocked
| OutOfFuel.

(** The output stream: each object yielded out, with whether [branch_lock]
    is held at that moment, and how the run ends. *)
Definition trace : Type := list (pyobj * bool) * outcome.

Definition emit (o : pyobj) (held : bool) (t : trace) : trace :=
  ((o, held) :: fst t, snd t).

Fixpoint plan_mutator (msg_proc : pyobj -> world -> handled * world)
    (fuel : nat) (s : state) : trace :=
  match fuel with
  | O => ([], OutOfFuel)
  | S n =>
      match plan_mutator_step msg_proc s with
      | Emit o s' => emit o (lock (env s')) (plan_mutator msg_proc n s')
      | Continue s' => plan_mutator msg_proc n s'
      | Return w => ([], Returned w)
      | Abort e w => ([], Aborted e w)
      | Deadlock => ([], Deadlocked)
      end
  end.

(** [branching_plan]: a new lock, then [plan_mutator(plan, branch_handler)]. *)
Definition initial (p : plan) : state :=
  mkState [PlanGen p] None (mkWorld false 0).

Definition branching_plan (p : plan) (fuel : nat) : trace :=
  plan_mutator branch_handler fuel (initial p).

(** The states a run of [branching_plan p] goes through. *)
Inductive reachable (p : plan) : state -> Prop :=
| reach_initial : reachable p (initial p)
| reach_emit s o s' :
    reachable p s -> plan_mutator_step branch_handler s = Emit o s' ->
    reachable p s'
| reach_continue s s' :
    reachable p s -> plan_mutator_step branch_handler s = Continue s' ->
    reachable p s'.

(** The shapes of the stack: the primary plan alone with the lock free, or
    one [new_gen] above it, which holds the lock once it has been resumed. *)
Definition is_plan (g : gen) : Prop :=
  match g with
  | NewGen _ _ => False
  | _ => True
  end.

Definition stack_ok (s : state) : Prop :=
  match plan_stack s with
  | [NewGen _ AtStart; g] =>
      is_plan g /\ lock (env s) = false /\ exception s = None
  | [NewGen _ _; g] =>
      is_plan g /\ lock (env s) = true /\ exception s = None
  | [g] => is_plan g /\ lock (env s) = false
  | _ => False
  end.

End BranchingPlan.

(** The [new_gen] generators on a stack: the branch substitutions under way. *)
Fixpoint in_transition (stack : list gen) : nat :=
  match stack with
  | [] => O
  | NewGen _ _ :: rest => S (in_transition rest)
  | _ :: rest => in_transition rest
  end.

(** Messages yielded out while the lock is held, in front of a trace. *)
Definition held (msgs : list Msg) : list (pyobj * bool) :=
  map (fun m => (OMsg m, true)) msgs.

Definition prefix_trace (evs : list (pyobj * bool)) (t : trace) : trace :=
  (evs ++ fst t, snd t).


(** How a plan ends: [None] when it returns. *)
Fixpoint plan_end (p : plan) : option exn :=
  match p with
  | Done => None
  | Raise e => Some e
  | Yield _ k | YieldTry _ k _ _ => plan_end k
  end.

Definition messages (t : list (pyobj * bool)) : list pyobj := map fst t.

(** The scenario plans. *)
Definition Checkpoint : Msg := mkMsg "checkpoint" None.
Definition Move (target : string) : Msg := mkMsg "set" (Some target).
Definition scenario_plan : plan :=
  plan_of [Checkpoint; Move "A"; Checkpoint; Move "B"] Done.
Definition scenario_branches : list plan := [plan_of [Move "R"] Done].

(** A primary plan that yields its checkpoint inside a [try] with a bare
    [except Exception], and moves B in the except clause. *)
Definition guarded_plan : plan :=
  YieldTry Checkpoint (plan_of [Move "A"] Done) (fun _ => true)
           (plan_of [Move "B"] Done).

(** Index 0 while the first checkpoint is handled (calls 0 and 1), None after. *)
Definition scenario_choice (n : nat) : option Z :=
  if Nat.ltb n 2 then Some 0%Z else None.

(** ** Recovery plans and the selector *)

(** A signal object: the value it gives on its n-th read. *)
Definition signal : Type := nat -> Q.

Record yag := mkYag
  { yag_name : string; yag_position : string; centroid_y : signal }.

Record motor := mkMotor { motor_name : string; position : Q }.

(** [get_thresh_signal]: [yag.detector.stats2.centroid.y]. *)
Definition get_thresh_signal (y : yag) : signal := centroid_y y.

(** The two sub-plans [homs_recover] delegates to live in
    [pswalker.plan_stubs]; a recovery plan is recorded as the calls it makes,
    with their arguments. *)
Inductive stub_call :=
| prep_img_motors (n_mot : Z) (img_motors : list yag) (timeout : Z)
| recover_threshold (sig : signal) (threshold : Q) (mot : motor)
                    (dir_init : Z) (timeout : Z) (has_stop : bool).

(** [make_homs_recover(...)()]: [yags[yag_index]] may raise IndexError; the
    direction is chosen from the motor position read at the call. *)
Definition make_homs_recover (yags : list yag) (yag_index : Z) (mot : motor)
    (threshold center : Q) (get_signal : yag -> signal)
  : exn + list stub_call :=
  match py_getitem yags yag_index with
  | None => inl IndexError
  | Some y =>
      let sig := get_signal y in
      let dir_init :=
        match (position mot ?= center)%Q with
        | Lt => 1%Z
        | _ => (-1)%Z
        end in
      inr [prep_img_motors yag_index yags 10;
           recover_threshold sig threshold mot dir_init 120 false]
  end.

(** The direction argument a recovery plan passes on. *)
Definition scan_direction (calls : list stub_call) : option Z :=
  match calls with
  | [_; recover_threshold _ _ _ d _ _] => Some d
  | _ => None
  end.

(** [make_pick_recover(yag1, yag2, threshold)()]: the body starts with
    [return None]; the statements after it are never reached. *)
Definition make_pick_recover (yag1 yag2 : yag) (threshold : list Q)
  : option Z := None.

Definition Qmax (a b : Q) : Q := if Qle_bool a b then b else a.

Definition max_samples (s : signal) (num : nat) : Q :=
  fold_left Qmax (map s (seq 1 (num - 1))) (s O).

Definition below (a b : Q) : bool :=
  match (a ?= b)%Q with Lt => true | _ => false end.

(** The selector as the specification words it (and as the unreachable
    statements of [pick_recover] read): the first sensor that is "IN" is
    sampled 25 times and its branch is chosen when the largest sample is
    below its floor. *)
Definition pick_recover_spec (yag1 yag2 : yag) (threshold : list Q)
  : option Z :=
  let num := 25%nat in
  if String.eqb (yag_position yag1) "IN" then
    if below (max_samples (get_thresh_signal yag1) num) (nth 0 threshold 0%Q)
    then Some 0%Z else None
  else if String.eqb (yag_position yag2) "IN" then
    if below (max_samples (get_thresh_signal yag2) num) (nth 1 threshold 0%Q)
    then Some 1%Z else None
  else None.

(** ** [homs_skywalker] *)

(** Run metadata: a dict as an association list read from the front. *)
Inductive argval :=
| ANum (q : Q)
| ANums (l : list Q)
| AStr (s : string).

Inductive mdval :=
| VNums (l : list Q)
| VStr (s : string)
| VStrs (l : list string)
| VDict (d : list (string * argval)).

Definition dict : Type := list (string * mdval).

Fixpoint dict_get (d : dict) (k : string) : option mdval :=
  match d with
  | [] => None
  | (k', v) :: rest => if String.eqb k k' then Some v else dict_get rest k
  end.

(** [d.update(other)]: the bindings of [other] shadow those of [d]. *)
Definition dict_update (d other : dict) : dict := other ++ d.

(** What [homs_skywalker] hands on: the metadata given to [run_decorator],
    and the goals, branches and selector given to [skywalker].  The mirrors
    and imagers that [homs_system()] builds are parameters here; [repr] of an
    imager is taken to be its name. *)
Record homs_run := mkHomsRun
  { run_md : dict; skywalker_goals : list Q;
    skywalker_branches : list (exn + list stub_call);
    skywalker_branch_choice : option Z }.

Definition homs_skywalker (m1h m2h : motor) (goals : list Q) (y1 y2 : yag)
    (gradients : option (list Q)) (tolerances averages timeout : Q)
    (has_beam_floor : list Q) (md : option dict) (first_steps : Q)
  : homs_run :=
  let gradients :=
    match gradients with
    | None => [(-4000)%Q; 32000%Q]
    | Some g => g
    end in
  let recover_m1 :=
    make_homs_recover [y1; y2] 0 m1h (1 # 10) (23998 # 100) get_thresh_signal in
  let recover_m2 :=
    make_homs_recover [y1; y2] 1 m2h (1 # 10) (10237 # 100) get_thresh_signal in
  let choice := make_pick_recover y1 y2 has_beam_floor in
  let _md : dict :=
    [("goals", VNums goals);
     ("detectors", VStrs [yag_name y1; yag_name y2]);
     ("mirrors", VStrs [motor_name m1h; motor_name m2h]);
     ("plan_name", VStr "homs_skywalker");
     ("plan_args",
      VDict [("goals", ANums goals);
             ("y1", AStr (yag_name y1)); ("y2", AStr (yag_name y2));
             ("gradients", ANums gradients);
             ("tolerances", ANum tolerances);
             ("averages", ANum averages);
             ("timeout", ANum timeout);
             ("has_beam_floor", ANums has_beam_floor);
             ("first_steps", ANum first_steps)])] in
  let _md := dict_update _md (match md with Some d => d | None => [] end) in
  let goals := map (fun g => 480 - g)%Q goals in
  mkHomsRun _md goals [recover_m1; recover_m2] choice.

(** Python's [==] on two lists of numbers. *)
Definition goals_equal (a b : list Q) : Prop := Forall2 Qeq a b.

(** ** [prune_path] *)

(** A device object, known by its identity. *)
Definition device : Type := nat.

Record Path := mkPath { devices : list device }.

(** The objects alive: a path is referred to by its address. *)
Definition store : Type := list Path.

Definition excluded (exclude : list device) (d : device) : bool :=
  existsb (Nat.eqb d) exclude.

(** Modelled from the spec: [prune_path] of [pswalker.path] is not under src
    (only [tests/test_path.py] calls it).  Given the items to exclude it
    builds a new path whose collection is the original minus the excluded
    items, and leaves the original as it is. *)
Definition prune_path (h : store) (path : nat) (exclude : list device)
  : option (store * nat) :=
  match nth_error h path with
  | None => None
  | Some p =>
      let kept := filter (fun d => negb (excluded exclude d)) (devices p) in
      Some (h ++ [mkPath kept], List.length h)
  end.

(** The direction of a recovery plan that could be built. *)
Definition direction_of (r : exn + list stub_call) : option Z :=
  match r with
  | inr calls => scan_direction calls
  | inl _ => None
  end.

(** Two imagers for the examples: one inserted and dark, one out. *)
Definition dark_yag : yag := mkYag "hx2" "IN" (fun _ => 0%Q).
Definition out_yag : yag := mkYag "dg3" "OUT" (fun _ => 0%Q).

(** The selector that answers the index 0 once and None from then on. *)
Definition once_choice (n : nat) : option Z :=
  if Nat.eqb n 0 then Some 0%Z else None.

(** ** The whole run, read off the primary plan *)

(** The plan that only ends the way [p] ends. *)
Definition plan_ending (p : plan) : plan :=
  match plan_end p with
  | None => Done
  | Some e => Raise e
  end.

Section Stream.

Variable branches : list plan.
Variable branch_choice : nat -> option Z.
Variable branch_msg : string.

(** What [branching_plan] yields out for the primary plan [p] when
    [branch_choice] has been called [n] times and the lock is free: the
    handling of each message of [p] in turn, as [branch_handler], [new_gen]
    and [do_branch] go through it ([at_message]; [on_send] is how the plan
    goes on when resumed, [on_throw] when the exception of a failed detour
    is thrown in).  It is compared with the step-by-step run in
    [run_stream]. *)
Definition at_message (m : Msg) (n : nat) (on_send : nat -> trace)
    (on_throw : exn -> nat -> trace) : trace :=
  if String.eqb (command m) branch_msg then
    match branch_choice n with
    | None => emit (OMsg m) true (on_send (S n))
    | Some _ =>
        match branch_choice (S n) with
        | None =>
            (held [mkMsg "checkpoint" None],
             Aborted AttributeError (mkWorld true (2 + n)))
        | Some i =>
            match py_getitem branches i with
            | None =>
                prefix_trace (held [mkMsg "checkpoint" None])
                  (on_throw IndexError (2 + n))
            | Some b =>
                prefix_trace (held (mkMsg "checkpoint" None :: plan_msgs b))
                  match plan_end b with
                  | None => emit (OMsg m) true (on_send (2 + n))
                  | Some e => on_throw e (2 + n)
                  end
            end
        end
    end
  else emit (OMsg m) false (on_send n).

Definition aborted (e : exn) (n : nat) : trace :=
  ([], Aborted e (mkWorld false n)).

Fixpoint stream (p : plan) (n : nat) : trace :=
  match p with
  | Done => ([], Returned (mkWorld false n))
  | Raise e => aborted e n
  | Yield m k => at_message m n (stream k) aborted
  | YieldTry m k catches handler =>
      at_message m n (stream k)
        (fun e n' => if catches e then stream handler n' else aborted e n')
  end.

End Stream.

(** The length of the longest branch, and fuel that is enough for [p]. *)
Definition longest (branches : list plan) : nat :=
  fold_right (fun b acc => Nat.max (plan_length b) acc) O branches.

(** The longest way through a plan, handlers included. *)
Fixpoint plan_depth (p : plan) : nat :=
  match p with
  | Yield _ k => S (plan_depth k)
  | YieldTry _ k _ handler => S (Nat.max (plan_depth k) (plan_depth handler))
  | _ => O
  end.

Definition enough_fuel (branches : list plan) (p : plan) : nat :=
  S (plan_depth p * (4 + longest branches)).

(** No yield of the plan is inside a [try]. *)
Fixpoint unguarded (p : plan) : Prop :=
  match p with
  | Yield _ k => unguarded k
  | YieldTry _ _ _ _ => False
  | _ => True
  end.

(** How many messages carrying the branch command [p] can yield at most,
    whichever way it goes on after a throw. *)
Fixpoint triggers (branch_msg : string) (p : plan) : nat :=
  match p with
  | Yield m k =>
      (if String.eqb (command m) branch_msg then 1 else 0) + triggers branch_msg k
  | YieldTry m k _ handler =>
      (if String.eqb (command m) branch_msg then 1 else 0)
      + Nat.max (triggers branch_msg k) (triggers branch_msg handler)
  | _ => O
  end.

(** The messages [msgs], each with a detour in front of it. *)
Fixpoint weave (detours : list (list Msg)) (msgs : list Msg) : list Msg :=
  match detours, msgs with
  | d :: ds, m :: ms => d ++ m :: weave ds ms
  | _, _ => []
  end.

(** ** Run engines and suspenders *)

Inductive suspender :=
| BeamEnergySuspendFloor (floor : Q)
| BeamRateSuspendFloor (floor : Q)
| PvAlarmSuspend (pv : string) (severity : string)
| LightpathSuspender (target : yag) (exclude : list yag).

(** The part of a bluesky [RunEngine] this module touches: the suspenders
    installed on it, in the order of installation, its [msg_hook] and its
    subscriptions. *)
Record RunEngine := mkRunEngine
  { suspenders : list suspender;
    msg_hook : option string;
    subscriptions : list (string * list string) }.

(** [RunEngine({})]. *)
Definition new_RunEngine : RunEngine := mkRunEngine [] None [].

Definition install_suspender (RE : RunEngine) (s : suspender) : RunEngine :=
  mkRunEngine (suspenders RE ++ [s]) (msg_hook RE) (subscriptions RE).

(** [lcls_RE(alarming_pvs=None, RE=None)]: the engine given (or a new one)
    gets the two beam floors, then one MAJOR alarm suspender for each PV, and
    its [msg_hook] is set to [RE.log.debug]. *)
Definition lcls_RE (alarming_pvs : option (list string))
    (RE : option RunEngine) : RunEngine :=
  let RE := match RE with Some r => r | None => new_RunEngine end in
  let RE := install_suspender RE (BeamEnergySuspendFloor (1 # 100)) in
  let RE := install_suspender RE (BeamRateSuspendFloor 2) in
  let alarming_pvs := match alarming_pvs with Some l => l | None => [] end in
  let RE :=
    fold_left (fun RE pv => install_suspender RE (PvAlarmSuspend pv "MAJOR"))
              alarming_pvs RE in
  mkRunEngine (suspenders RE) (Some "log.debug") (subscriptions RE).

(** Python's [l[:stop]]. *)
Definition py_slice_to {A : Type} (l : list A) (stop : Z) : list A :=
  let len := Z.of_nat (List.length l) in
  let stop := if (stop <? 0)%Z then Z.max 0 (len + stop) else Z.min stop len in
  firstn (Z.to_nat stop) l.

(** [get_lightpath_suspender]: [LightpathSuspender(yags[-1],
    exclude=yags[:-1])]; [yags[-1]] raises IndexError on an empty list. *)
Definition get_lightpath_suspender (yags : list yag) : exn + suspender :=
  match py_getitem yags (-1) with
  | None => inl IndexError
  | Some last => inr (LightpathSuspender last (py_slice_to yags (-1)))
  end.

(** * Facts about the engine *)

Lemma plan_msgs_of body ending :
  plan_msgs (plan_of body ending) = body ++ plan_msgs ending.
Proof. induction body; simpl; congruence. Qed.

Lemma plan_length_of body ending :
  plan_length (plan_of body ending) = List.length body + plan_length ending.
Proof. induction body; simpl; congruence. Qed.

Lemma plan_end_of body ending :
  plan_end (plan_of body ending) = plan_end ending.
Proof. induction body; simpl; congruence. Qed.

Section EngineFacts.

Variable branches : list plan.
Variable branch_choice : nat -> option Z.
Variable branch_msg : string.

Local Abbreviation handler := (branch_handler branch_msg).
Local Abbreviation step :=
  (plan_mutator_step branches branch_choice (branch_handler branch_msg)).
Local Abbreviation run :=
  (plan_mutator branches branch_choice (branch_handler branch_msg)).

Lemma prefix_trace_app evs1 evs2 t :
  prefix_trace (evs1 ++ evs2) t = prefix_trace evs1 (prefix_trace evs2 t).
Proof. unfold prefix_trace; simpl; now rewrite app_assoc. Qed.

Lemma prefix_trace_nil t : prefix_trace [] t = t.
Proof. now destruct t. Qed.

Lemma emit_prefix o b t : emit o b t = prefix_trace [(o, b)] t.
Proof. reflexivity. Qed.

Lemma run_emit n s o s' :
  step s = Emit o s' -> run (S n) s = emit o (lock (env s')) (run n s').
Proof. intros H; simpl; now rewrite H. Qed.

Lemma run_continue n s s' :
  step s = Continue s' -> run (S n) s = run n s'.
Proof. intros H; simpl; now rewrite H. Qed.

(** With the lock held the handler lets everything that is a message
    through. *)
Lemma handler_locked m w :
  lock w = true -> handler (OMsg m) w = (PassThrough, w).
Proof.
  intros H; unfold branch_handler.
  destruct (String.eqb (command m) branch_msg); [now rewrite H | reflexivity].
Qed.

(** The handler gives the lock back before it returns. *)
Lemma handler_free m w :
  lock w = false ->
  handler (OMsg m) w =
  (if String.eqb (command m) branch_msg
   then Replace (NewGen m AtStart) else PassThrough, mkWorld false (calls w)).
Proof.
  intros H; unfold branch_handler, release, acquire; destruct w as [l c].
  simpl in *; subst l.
  now destruct (String.eqb (command m) branch_msg).
Qed.

(** A plan suspended inside a [try] is resumed like the plan it goes on
    as. *)
Lemma try_resume k catches h lower w n :
  run n (mkState (TryGen k catches h :: lower) None w) =
  run n (mkState (PlanGen k :: lower) None w).
Proof. destruct n; reflexivity. Qed.

(** A message of the plan at the bottom comes out: a trigger command with
    the lock free pushes [new_gen], anything else is yielded out. *)
Lemma bottom_yields P m g w n :
  lock w = false ->
  plan_send P w = YieldNew (OMsg m) g w ->
  run (S n) (mkState [PlanGen P] None w) =
  if String.eqb (command m) branch_msg
  then run n (mkState [NewGen m AtStart; g] None (mkWorld false (calls w)))
  else emit (OMsg m) false (run n (mkState [g] None (mkWorld false (calls w)))).
Proof.
  intros Hl Hs. cbn [plan_mutator]. unfold plan_mutator_step.
  cbn [plan_stack exception env gen_send]. rewrite Hs. cbn [resumed_step].
  rewrite handler_free by assumption.
  now destruct (String.eqb (command m) branch_msg).
Qed.


Section Detour.

(** The detour at the trigger command [c], from the moment [new_gen] has
    been pushed on the generator [bottom] of the primary plan. *)
Variable c : Msg.
Variable bottom : gen.
Variable calls0 : nat.

Local Abbreviation pushed :=
  (mkState [NewGen c AtStart; bottom] None (mkWorld false calls0)).

(** The selector answers None: [c] is given back under the lock. *)
Lemma detour_none n :
  branch_choice calls0 = None ->
  run (2 + n) pushed =
  emit (OMsg c) true
       (run n (mkState [bottom] None (mkWorld false (S calls0)))).
Proof.
  intros Hn. change (2 + n)%nat with (S (S n)).
  rewrite (run_emit _ _ (OMsg c)
             (mkState [NewGen c AtMsg; bottom] None
                      (mkWorld true (S calls0)))).
  2:{ unfold plan_mutator_step.
      cbn [plan_stack exception env gen_send new_gen lock acquire calls tick].
      now rewrite Hn. }
  cbn [env lock].
  now rewrite (run_continue _ _
                 (mkState [bottom] None (mkWorld false (S calls0)))).
Qed.

(** The selector answers an index: the new checkpoint goes out. *)
Lemma detour_enter first n :
  branch_choice calls0 = Some first ->
  run (S n) pushed =
  emit (OMsg (mkMsg "checkpoint" None)) true
    (run n (mkState [NewGen c (InCheckpoint Done); bottom] None
                    (mkWorld true (S calls0)))).
Proof.
  intros H1.
  apply (run_emit _ _ (OMsg (mkMsg "checkpoint" None))
           (mkState [NewGen c (InCheckpoint Done); bottom] None
                    (mkWorld true (S calls0)))).
  unfold plan_mutator_step.
  cbn [plan_stack exception env gen_send new_gen lock acquire calls tick].
  rewrite H1. unfold checkpoint; cbn [after_checkpoint resumed_step].
  now rewrite handler_locked.
Qed.

(** The second answer is None: [yield null()] hands the generator object to
    the handler, whose [msg.command] raises. *)
Lemma detour_null first n :
  branch_choice calls0 = Some first ->
  branch_choice (S calls0) = None ->
  run (2 + n) pushed =
  (held [mkMsg "checkpoint" None],
   Aborted AttributeError (mkWorld true (2 + calls0))).
Proof.
  intros H1 H2. change (2 + n)%nat with (S (S n)).
  rewrite (detour_enter first _ H1).
  cbn [plan_mutator]. unfold plan_mutator_step.
  cbn [plan_stack exception env gen_send new_gen after_checkpoint].
  unfold do_branch. cbn [calls tick lock]. rewrite H2. reflexivity.
Qed.

(** The second answer names no branch: IndexError leaves [new_gen] through
    its [with] block and is stashed for the primary plan. *)
Lemma detour_index first i n :
  branch_choice calls0 = Some first ->
  branch_choice (S calls0) = Some i ->
  py_getitem branches i = None ->
  run (2 + n) pushed =
  prefix_trace (held [mkMsg "checkpoint" None])
    (run n (mkState [bottom] (Some IndexError) (mkWorld false (2 + calls0)))).
Proof.
  intros H1 H2 Hb. change (2 + n)%nat with (S (S n)).
  rewrite (detour_enter first _ H1).
  rewrite (run_continue _ _
             (mkState [bottom] (Some IndexError)
                      (mkWorld false (2 + calls0)))); [reflexivity|].
  unfold plan_mutator_step.
  cbn [plan_stack exception env gen_send new_gen after_checkpoint].
  unfold do_branch. cbn [calls tick lock]. rewrite H2, Hb. reflexivity.
Qed.

(** Inside [yield from branch()]: every message of the branch goes out
    under the lock, whatever its command. *)
Lemma branch_messages b w n :
  lock w = true ->
  run (plan_length b + n)
      (mkState [NewGen c (InBranch b); bottom] None w) =
  prefix_trace (held (plan_msgs b))
    (run n (mkState [NewGen c (InBranch (plan_ending b)); bottom] None w)).
Proof.
  intros Hl. unfold plan_ending.
  induction b as [|e|m k IH|m k IH catches h _];
    cbn [plan_length plan_msgs plan_end held map Nat.add].
  - now rewrite prefix_trace_nil.
  - now rewrite prefix_trace_nil.
  - rewrite (run_emit _ _ (OMsg m)
               (mkState [NewGen c (InBranch k); bottom] None w)).
    2:{ unfold plan_mutator_step.
        cbn [plan_stack exception env gen_send new_gen run_branch
             resumed_step].
        now rewrite handler_locked. }
    cbn [env]. rewrite Hl, IH. reflexivity.
  - rewrite (run_emit _ _ (OMsg m)
               (mkState [NewGen c (InBranch k); bottom] None w)).
    2:{ unfold plan_mutator_step.
        cbn [plan_stack exception env gen_send new_gen run_branch
             resumed_step].
        now rewrite handler_locked. }
    cbn [env]. rewrite Hl, IH. reflexivity.
Qed.

(** The branch returns: the original command, then the lock is released
    and the primary plan is resumed. *)
Lemma branch_returns w n :
  run (2 + n) (mkState [NewGen c (InBranch Done); bottom] None w) =
  emit (OMsg c) (lock w)
       (run n (mkState [bottom] None (mkWorld false (calls w)))).
Proof.
  change (2 + n)%nat with (S (S n)).
  rewrite (run_emit _ _ (OMsg c) (mkState [NewGen c AtMsg; bottom] None w))
    by reflexivity.
  now rewrite (run_continue _ _
                 (mkState [bottom] None (mkWorld false (calls w)))).
Qed.

(** The branch raises: the lock is released on the way out of [with] and
    the exception is stashed for the primary plan. *)
Lemma branch_raises e w n :
  run (S n) (mkState [NewGen c (InBranch (Raise e)); bottom] None w) =
  run n (mkState [bottom] (Some e) (mkWorld false (calls w))).
Proof. reflexivity. Qed.

(** From the push to the end of the chosen branch's messages. *)
Lemma detour_branch first i b n :
  branch_choice calls0 = Some first ->
  branch_choice (S calls0) = Some i ->
  py_getitem branches i = Some b ->
  run (1 + (plan_length b + S n)) pushed =
  prefix_trace (held (mkMsg "checkpoint" None :: plan_msgs b))
    (run (S n) (mkState [NewGen c (InBranch (plan_ending b)); bottom] None
                        (mkWorld true (2 + calls0)))).
Proof.
  intros H1 H2 Hb. change (1 + (plan_length b + S n))%nat
    with (S (plan_length b + S n)).
  rewrite (detour_enter first _ H1).
  assert (Hin : forall j,
             run (S j) (mkState [NewGen c (InCheckpoint Done); bottom] None
                                (mkWorld true (S calls0))) =
             run (S j) (mkState [NewGen c (InBranch b); bottom] None
                                (mkWorld true (2 + calls0)))).
  { intros j. cbn [plan_mutator]. unfold plan_mutator_step.
    cbn [plan_stack exception env gen_send new_gen after_checkpoint].
    unfold do_branch. cbn [calls tick lock]. now rewrite H2, Hb. }
  replace (plan_length b + S n)%nat with (S (plan_length b + n)) by lia.
  rewrite Hin.
  replace (S (plan_length b + n)) with (plan_length b + S n)%nat by lia.
  rewrite branch_messages by reflexivity.
  reflexivity.
Qed.

End Detour.

(** An exception thrown into the primary plan: out of a yield with no
    [except] clause it leaves the engine; a clause that catches it lets the
    plan go on as its handler. *)
Lemma thrown_plan k e w n :
  run (S n) (mkState [PlanGen k] (Some e) w) = ([], Aborted e w).
Proof. reflexivity. Qed.

Lemma thrown_try k catches h e w n :
  run (S n) (mkState [TryGen k catches h] (Some e) w) =
  if catches e then run (S n) (mkState [PlanGen h] None w)
  else ([], Aborted e w).
Proof.
  cbn [plan_mutator]. unfold plan_mutator_step.
  cbn [plan_stack exception env gen_send gen_throw].
  destruct (catches e); [|reflexivity].
  now destruct h.
Qed.


Lemma substitution_run c k w first i body n :
  String.eqb (command c) branch_msg = true ->
  lock w = false ->
  branch_choice (calls w) = Some first ->
  branch_choice (S (calls w)) = Some i ->
  py_getitem branches i = Some (plan_of body Done) ->
  run (List.length body + 4 + n) (mkState [PlanGen (Yield c k)] None w) =
  prefix_trace (held (mkMsg "checkpoint" None :: body ++ [c]))
    (run n (mkState [PlanGen k] None (mkWorld false (2 + calls w)))).
Proof.
  intros Hc Hl H1 H2 Hb.
  replace (List.length body + 4 + n)%nat
    with (S (1 + (plan_length (plan_of body Done) + S (S n)))).
  2:{ rewrite plan_length_of. simpl. lia. }
  rewrite (bottom_yields (Yield c k) c (PlanGen k) w _ Hl eq_refl), Hc.
  rewrite (detour_branch c (PlanGen k) (calls w) first i _ _ H1 H2 Hb).
  unfold plan_ending. rewrite plan_end_of, plan_msgs_of. cbn [plan_end plan_msgs].
  rewrite app_nil_r.
  change (S (S n)) with (2 + n)%nat. rewrite branch_returns.
  unfold held. rewrite app_comm_cons, map_app, prefix_trace_app.
  reflexivity.
Qed.

Lemma failure_run c k w first i body e n :
  String.eqb (command c) branch_msg = true ->
  lock w = false ->
  branch_choice (calls w) = Some first ->
  branch_choice (S (calls w)) = Some i ->
  py_getitem branches i = Some (plan_of body (Raise e)) ->
  run (List.length body + 4 + n) (mkState [PlanGen (Yield c k)] None w) =
  (held (mkMsg "checkpoint" None :: body),
   Aborted e (mkWorld false (2 + calls w))).
Proof.
  intros Hc Hl H1 H2 Hb.
  replace (List.length body + 4 + n)%nat
    with (S (1 + (plan_length (plan_of body (Raise e)) + S (S n)))).
  2:{ rewrite plan_length_of. simpl. lia. }
  rewrite (bottom_yields (Yield c k) c (PlanGen k) w _ Hl eq_refl), Hc.
  rewrite (detour_branch c (PlanGen k) (calls w) first i _ _ H1 H2 Hb).
  unfold plan_ending. rewrite plan_end_of, plan_msgs_of. cbn [plan_end plan_msgs].
  rewrite app_nil_r, branch_raises, thrown_plan.
  unfold prefix_trace; simpl. now rewrite app_nil_r.
Qed.

(** The same failure at a yield inside a [try]. *)
Lemma failure_try_run c k catches h w first i body e n :
  String.eqb (command c) branch_msg = true ->
  lock w = false ->
  branch_choice (calls w) = Some first ->
  branch_choice (S (calls w)) = Some i ->
  py_getitem branches i = Some (plan_of body (Raise e)) ->
  run (List.length body + 4 + n)
      (mkState [PlanGen (YieldTry c k catches h)] None w) =
  prefix_trace (held (mkMsg "checkpoint" None :: body))
    (if catches e
     then run (S n) (mkState [PlanGen h] None (mkWorld false (2 + calls w)))
     else ([], Aborted e (mkWorld false (2 + calls w)))).
Proof.
  intros Hc Hl H1 H2 Hb.
  replace (List.length body + 4 + n)%nat
    with (S (1 + (plan_length (plan_of body (Raise e)) + S (S n)))).
  2:{ rewrite plan_length_of. simpl. lia. }
  rewrite (bottom_yields (YieldTry c k catches h) c (TryGen k catches h) w _
             Hl eq_refl), Hc.
  rewrite (detour_branch c (TryGen k catches h) (calls w) first i _ _
             H1 H2 Hb).
  unfold plan_ending. rewrite plan_end_of, plan_msgs_of. cbn [plan_end plan_msgs].
  rewrite app_nil_r, branch_raises, thrown_try. reflexivity.
Qed.

Lemma null_run c k w first n :
  String.eqb (command c) branch_msg = true ->
  lock w = false ->
  branch_choice (calls w) = Some first ->
  branch_choice (S (calls w)) = None ->
  run (3 + n) (mkState [PlanGen (Yield c k)] None w) =
  (held [mkMsg "checkpoint" None],
   Aborted AttributeError (mkWorld true (2 + calls w))).
Proof.
  intros Hc Hl H1 H2. change (3 + n)%nat with (S (2 + n)).
  rewrite (bottom_yields (Yield c k) c (PlanGen k) w _ Hl eq_refl), Hc.
  now apply (detour_null c (PlanGen k) (calls w) first).
Qed.

Lemma index_run c k w first i n :
  String.eqb (command c) branch_msg = true ->
  lock w = false ->
  branch_choice (calls w) = Some first ->
  branch_choice (S (calls w)) = Some i ->
  py_getitem branches i = None ->
  run (4 + n) (mkState [PlanGen (Yield c k)] None w) =
  (held [mkMsg "checkpoint" None],
   Aborted IndexError (mkWorld false (2 + calls w))).
Proof.
  intros Hc Hl H1 H2 Hb. change (4 + n)%nat with (S (2 + S n)).
  rewrite (bottom_yields (Yield c k) c (PlanGen k) w _ Hl eq_refl), Hc.
  rewrite (detour_index c (PlanGen k) (calls w) first i _ H1 H2 Hb).
  now rewrite thrown_plan.
Qed.

(** The same bad index at a yield inside a [try]. *)
Lemma index_try_run c k catches h w first i n :
  String.eqb (command c) branch_msg = true ->
  lock w = false ->
  branch_choice (calls w) = Some first ->
  branch_choice (S (calls w)) = Some i ->
  py_getitem branches i = None ->
  run (4 + n) (mkState [PlanGen (YieldTry c k catches h)] None w) =
  prefix_trace (held [mkMsg "checkpoint" None])
    (if catches IndexError
     then run (S n) (mkState [PlanGen h] None (mkWorld false (2 + calls w)))
     else ([], Aborted IndexError (mkWorld false (2 + calls w)))).
Proof.
  intros Hc Hl H1 H2 Hb. change (4 + n)%nat with (S (2 + S n)).
  rewrite (bottom_yields (YieldTry c k catches h) c (TryGen k catches h) w _
             Hl eq_refl), Hc.
  rewrite (detour_index c (TryGen k catches h) (calls w) first i _ H1 H2 Hb).
  now rewrite thrown_try.
Qed.

(** With a selector that always answers None the stream is the plan's. *)
Lemma noop_run p :
  (forall k, branch_choice k = None) ->
  forall w n, lock w = false ->
  exists w', lock w' = false /\
    run (3 * plan_length p + 1 + n) (mkState [PlanGen p] None w) =
    (map (fun m => (OMsg m, String.eqb (command m) branch_msg)) (plan_msgs p),
     match plan_end p with
     | None => Returned w'
     | Some e => Aborted e w'
     end).
Proof.
  intros Hnone.
  assert (Hstep : forall P m g k, plan_length P = S (plan_length k) ->
            (forall w, plan_send P w = YieldNew (OMsg m) g w) ->
            (forall w j, run j (mkState [g] None w) =
                         run j (mkState [PlanGen k] None w)) ->
            (forall w n, lock w = false ->
               exists w', lock w' = false /\
                 run (3 * plan_length k + 1 + n) (mkState [PlanGen k] None w) =
                 (map (fun m => (OMsg m, String.eqb (command m) branch_msg))
                      (plan_msgs k),
                  match plan_end k with
                  | None => Returned w'
                  | Some e => Aborted e w'
                  end)) ->
            forall w n, lock w = false ->
              exists w', lock w' = false /\
                run (3 * plan_length P + 1 + n) (mkState [PlanGen P] None w) =
                ((OMsg m, String.eqb (command m) branch_msg)
                   :: map (fun m => (OMsg m, String.eqb (command m) branch_msg))
                          (plan_msgs k),
                 match plan_end k with
                 | None => Returned w'
                 | Some e => Aborted e w'
                 end)).
  { intros P m g k HP Hs Hg IH w n Hl. rewrite HP.
    replace (3 * S (plan_length k) + 1 + n)%nat
      with (S (2 + (3 * plan_length k + 1 + n)))%nat by lia.
    rewrite (bottom_yields P m g w _ Hl (Hs w)).
    destruct (String.eqb (command m) branch_msg) eqn:Hm.
    - rewrite (detour_none m g (calls w) _ (Hnone _)), Hg.
      destruct (IH (mkWorld false (S (calls w))) n eq_refl) as (w' & Hw' & ->).
      exists w'; split; [assumption | reflexivity].
    - rewrite Hg.
      destruct (IH (mkWorld false (calls w)) (2 + n)%nat eq_refl)
        as (w' & Hw' & Hrun).
      replace (2 + (3 * plan_length k + 1 + n))%nat
        with (3 * plan_length k + 1 + (2 + n))%nat by lia.
      rewrite Hrun.
      exists w'; split; [assumption | reflexivity]. }
  induction p as [|e|m k IH|m k IH catches h _]; intros w n Hl.
  - exists w; split; [assumption | reflexivity].
  - exists w; split; [assumption | reflexivity].
  - exact (Hstep (Yield m k) m (PlanGen k) k eq_refl (fun _ => eq_refl)
             (fun _ _ => eq_refl) IH w n Hl).
  - exact (Hstep (YieldTry m k catches h) m (TryGen k catches h) k eq_refl
             (fun _ => eq_refl) (fun w j => try_resume k catches h [] w j)
             IH w n Hl).
Qed.

Ltac step_cases :=
  unfold checkpoint; cbn [run_branch after_checkpoint plan_send resumed_step];
  try rewrite handler_locked by reflexivity;
  try rewrite handler_free by reflexivity;
  simpl;
  repeat match goal with
    | |- context [if ?b then _ else _] => destruct b; simpl
    end;
  auto.

(** One step keeps the stack in shape. *)
Lemma step_stack_ok s :
  stack_ok s ->
  match step s with
  | Emit _ s' | Continue s' => stack_ok s'
  | Deadlock => False
  | _ => True
  end.
Proof.
  destruct s as [stack exc [l calls0]]. unfold stack_ok, plan_mutator_step.
  cbn [plan_stack exception env lock].
  destruct stack as [|top [|bottom [|g rest]]]; try tauto.
  - (* the primary plan alone *)
    destruct top as [p|m pc|k catches h];
      try (intros H; destruct pc; simpl in H; tauto);
      intros H; simpl in H; destruct H as [_ ->]; destruct exc as [e|];
      cbn [gen_send gen_throw resumed_step pop]; try exact I.
    + destruct p; step_cases.
    + destruct (catches e); [destruct h|]; step_cases.
    + destruct k; step_cases.
  - (* [new_gen] on the primary plan *)
    destruct top as [p|m pc|k catches h]; try tauto.
    destruct pc as [|[|e|m' k|m' k catches h]|body| |];
      intros H; simpl in H; destruct H as (Hb & -> & ->);
      destruct bottom; try (now simpl in Hb);
      cbn [gen_send new_gen after_checkpoint lock acquire tick calls];
      unfold do_branch; cbn [lock tick calls];
      try (destruct (branch_choice calls0) as [i|]; [|step_cases]);
      try (destruct (py_getitem branches i) as [[| | |]|]);
      try (destruct body);
      step_cases.
  - destruct top as [p|m pc|k catches h]; try tauto; destruct pc; tauto.
Qed.

Lemma reachable_stack_ok p s :
  reachable branches branch_choice branch_msg p s -> stack_ok s.
Proof.
  induction 1 as [|s o s' _ IH Hs|s s' _ IH Hs].
  - split; [exact I | reflexivity].
  - apply step_stack_ok in IH. now rewrite Hs in IH.
  - apply step_stack_ok in IH. now rewrite Hs in IH.
Qed.

End EngineFacts.

(** A reachable state in which the primary plan is about to yield [c]. *)
Lemma about_to_yield branches branch_choice branch_msg p0 s c rest :
  reachable branches branch_choice branch_msg p0 s ->
  plan_stack s = [PlanGen (Yield c rest)] -> exception s = None ->
  s = mkState [PlanGen (Yield c rest)] None (env s) /\ lock (env s) = false.
Proof.
  intros Hr Hs He. apply reachable_stack_ok in Hr. unfold stack_ok in Hr.
  destruct s as [stack exc w]; simpl in *; subst. now split.
Qed.

(** A reachable state with the primary plan alone on the stack. *)
Lemma about_to_resume branches branch_choice branch_msg p0 s P :
  reachable branches branch_choice branch_msg p0 s ->
  plan_stack s = [PlanGen P] -> exception s = None ->
  s = mkState [PlanGen P] None (env s) /\ lock (env s) = false.
Proof.
  intros Hr Hs He. apply reachable_stack_ok in Hr. unfold stack_ok in Hr.
  destruct s as [stack exc w]; simpl in *; subst. now split.
Qed.

(** * The branching engine *)



(** C2. When the selector answers None every time it is asked, the output
    is the primary plan's own messages, one for one and in order, and the run
    ends as the plan does. *)
Theorem noop_branching :
  forall branches branch_choice branch_msg p n,
    (forall k, branch_choice k = None) ->
    let t := branching_plan branches branch_choice branch_msg p
               (3 * plan_length p + 1 + n) in
    messages (fst t) = map OMsg (plan_msgs p)
    /\ exists w, lock w = false /\
         snd t = match plan_end p with
                 | None => Returned w
                 | Some e => Aborted e w
                 end.
Proof.
  intros branches branch_choice branch_msg p n Hnone t; subst t.
  unfold branching_plan, initial.
  destruct (noop_run branches branch_choice branch_msg p Hnone
              (mkWorld false 0) n eq_refl) as (w & Hw & ->).
  split.
  - unfold messages; cbn [fst]. rewrite map_map. reflexivity.
  - exists w. now split.
Qed.

Lemma noop_branching_witness :
  messages (fst (branching_plan scenario_branches (fun _ => None) "checkpoint"
                   scenario_plan 13)) =
  map OMsg [Checkpoint; Move "A"; Checkpoint; Move "B"].
Proof.
  exact (proj1 (noop_branching scenario_branches (fun _ => None) "checkpoint"
                  scenario_plan 0 (fun _ => eq_refl))).
Defined.




(** C4. A message pulled while the lock is held (so also a trigger command,
    such as the new checkpoint inside a substitution) is yielded out as it
    is: no error, nothing pushed on the stack.  In every state of a run at
    most one [new_gen] is on the stack, and the blocking acquire of [new_gen]
    never waits. *)
Theorem reentrant_trigger_passes :
  forall branches branch_choice branch_msg,
    (forall top lower w m g w',
        gen_send branches branch_choice top w = YieldNew (OMsg m) g w' ->
        lock w' = true ->
        plan_mutator_step branches branch_choice (branch_handler branch_msg)
          (mkState (top :: lower) None w) =
        Emit (OMsg m) (mkState (g :: lower) None w'))
    /\ (forall p s,
           reachable branches branch_choice branch_msg p s ->
           in_transition (plan_stack s) <= 1
           /\ plan_mutator_step branches branch_choice
                (branch_handler branch_msg) s <> Deadlock).
Proof.
  intros branches branch_choice branch_msg. split.
  - intros top lower w m g w' Hsend Hl.
    unfold plan_mutator_step. cbn [plan_stack exception env].
    rewrite Hsend. cbn [resumed_step]. now rewrite handler_locked.
  - intros p s Hr. apply reachable_stack_ok in Hr. split.
    + unfold stack_ok in Hr.
      destruct (plan_stack s) as [|top [|bottom [|g rest]]]; [tauto| | |].
      * destruct top as [q|m pc|k catches h]; simpl; lia.
      * destruct top as [q|m pc|k catches h]; try tauto.
        destruct pc; destruct Hr as (Hb & _); destruct bottom;
          simpl in *; try lia; tauto.
      * destruct top as [q|m pc|k catches h]; try tauto; destruct pc; tauto.
    + intros Hd.
      apply (step_stack_ok branches branch_choice branch_msg) in Hr.
      now rewrite Hd in Hr.
Qed.

Lemma reentrant_trigger_passes_witness :
  plan_mutator_step scenario_branches scenario_choice
    (branch_handler "checkpoint")
    (mkState [NewGen Checkpoint (InCheckpoint Done); PlanGen Done] None
             (mkWorld true 1)) =
  Emit (OMsg (Move "R"))
       (mkState [NewGen Checkpoint (InBranch Done); PlanGen Done] None
                (mkWorld true 2))
  /\ plan_mutator_step scenario_branches scenario_choice
       (branch_handler "checkpoint")
       (mkState [NewGen (Move "A") (InBranch (Yield Checkpoint Done));
                 PlanGen Done] None (mkWorld true 2)) =
     Emit (OMsg Checkpoint)
          (mkState [NewGen (Move "A") (InBranch Done); PlanGen Done] None
                   (mkWorld true 2)).
Proof.
  split.
  - exact (proj1 (reentrant_trigger_passes scenario_branches scenario_choice
                    "checkpoint")
             (NewGen Checkpoint (InCheckpoint Done)) [PlanGen Done] (mkWorld true 1)
             (Move "R") (NewGen Checkpoint (InBranch Done)) (mkWorld true 2)
             eq_refl eq_refl).
  - exact (proj1 (reentrant_trigger_passes scenario_branches scenario_choice
                    "checkpoint")
             (NewGen (Move "A") (InBranch (Yield Checkpoint Done)))
             [PlanGen Done] (mkWorld true 2)
             Checkpoint (NewGen (Move "A") (InBranch Done)) (mkWorld true 2)
             eq_refl eq_refl).
Defined.

(** C6, as the code has it.  When the chosen branch raises [e], the [with]
    block of [new_gen] releases the lock and [e] is thrown into the primary
    plan at the yield of the trigger command, right after the branch's last
    message: the trigger command is not yielded out, and the selector has
    been asked twice and no more (the branch is not run again).  At a yield
    outside any [try] the run aborts with [e]; at a yield inside a [try] the
    run aborts with [e] when the except clause does not catch it, and goes on
    with the except clause, the lock free, when it does. *)
Theorem branch_failure_thrown :
  forall branches branch_choice branch_msg p0 s c rest first i body e n,
    reachable branches branch_choice branch_msg p0 s ->
    exception s = None ->
    command c = branch_msg ->
    branch_choice (calls (env s)) = Some first ->
    branch_choice (S (calls (env s))) = Some i ->
    py_getitem branches i = Some (plan_of body (Raise e)) ->
    (plan_stack s = [PlanGen (Yield c rest)] ->
     plan_mutator branches branch_choice (branch_handler branch_msg)
       (List.length body + 4 + n) s =
     (held (mkMsg "checkpoint" None :: body),
      Aborted e (mkWorld false (2 + calls (env s)))))
    /\ (forall catches h,
        plan_stack s = [PlanGen (YieldTry c rest catches h)] ->
        plan_mutator branches branch_choice (branch_handler branch_msg)
          (List.length body + 4 + n) s =
        prefix_trace (held (mkMsg "checkpoint" None :: body))
          (if catches e
           then plan_mutator branches branch_choice
                  (branch_handler branch_msg) (S n)
                  (mkState [PlanGen h] None
                     (mkWorld false (2 + calls (env s))))
           else ([], Aborted e (mkWorld false (2 + calls (env s)))))).
Proof.
  intros branches branch_choice branch_msg p0 s c rest first i body e n
         Hr He Hc H1 H2 Hb.
  apply String.eqb_eq in Hc. split.
  - intros Hs. destruct (about_to_resume _ _ _ _ _ _ Hr Hs He) as [-> Hl].
    exact (failure_run _ _ _ c rest _ first i body e n Hc Hl H1 H2 Hb).
  - intros catches h Hs.
    destruct (about_to_resume _ _ _ _ _ _ Hr Hs He) as [-> Hl].
    exact (failure_try_run _ _ _ c rest catches h _ first i body e n
             Hc Hl H1 H2 Hb).
Qed.

Lemma branch_failure_thrown_witness :
  plan_mutator [plan_of [Move "R"] (Raise (PlanFailure "motion fault"))]
    scenario_choice (branch_handler "checkpoint") 5 (initial scenario_plan) =
  (held [mkMsg "checkpoint" None; Move "R"],
   Aborted (PlanFailure "motion fault") (mkWorld false 2))
  /\ plan_mutator [plan_of [Move "R"] (Raise (PlanFailure "motion fault"))]
       scenario_choice (branch_handler "checkpoint") 5
       (initial (YieldTry Checkpoint (plan_of [Move "A"] Done)
                   (fun e => match e with IndexError => true | _ => false end)
                   (plan_of [Move "B"] Done))) =
     (held [mkMsg "checkpoint" None; Move "R"],
      Aborted (PlanFailure "motion fault") (mkWorld false 2)).
Proof.
  split.
  - exact (proj1 (branch_failure_thrown
                    [plan_of [Move "R"] (Raise (PlanFailure "motion fault"))]
                    scenario_choice "checkpoint" scenario_plan
                    (initial scenario_plan) Checkpoint
                    (plan_of [Move "A"; Checkpoint; Move "B"] Done) 0%Z 0%Z
                    [Move "R"] (PlanFailure "motion fault") 0%nat
                    (reach_initial _ _ _ _) eq_refl eq_refl eq_refl eq_refl
                    eq_refl)
                 eq_refl).
  - exact (proj2 (branch_failure_thrown
                    [plan_of [Move "R"] (Raise (PlanFailure "motion fault"))]
                    scenario_choice "checkpoint" _
                    (initial (YieldTry Checkpoint (plan_of [Move "A"] Done)
                                (fun e => match e with
                                          | IndexError => true
                                          | _ => false
                                          end)
                                (plan_of [Move "B"] Done)))
                    Checkpoint (plan_of [Move "A"] Done) 0%Z 0%Z
                    [Move "R"] (PlanFailure "motion fault") 0%nat
                    (reach_initial _ _ _ _) eq_refl eq_refl eq_refl eq_refl
                    eq_refl)
                 _ _ eq_refl).
Defined.

(** C6, as the spec words it, fails where the primary plan catches what is
    thrown into it: the branch raises a motion fault after Move(R), the
    except clause of [guarded_plan] catches it, and the stream goes on with
    Move(B) and returns instead of aborting.  The lock is free and the
    branch has not been run again. *)
Lemma caught_branch_failure_returns :
  branching_plan [plan_of [Move "R"] (Raise (PlanFailure "motion fault"))]
    scenario_choice "checkpoint" guarded_plan 6 =
  (held [mkMsg "checkpoint" None; Move "R"] ++ [(OMsg (Move "B"), false)],
   Returned (mkWorld false 2)).
Proof. reflexivity. Qed.

(** C9. One trigger command makes the engine ask the selector twice when
    the first answer is an index, and the branch that runs is the one the
    second answer names.  When the second answer is None, the new checkpoint
    is the only output: [yield null()] hands out a generator object, on which
    [branch_handler] raises AttributeError; no Null message and no original
    command follow. *)
Theorem second_choice_decides :
  forall branches branch_choice branch_msg p0 s c rest first n,
    reachable branches branch_choice branch_msg p0 s ->
    plan_stack s = [PlanGen (Yield c rest)] -> exception s = None ->
    command c = branch_msg ->
    branch_choice (calls (env s)) = Some first ->
    (forall second body,
        branch_choice (S (calls (env s))) = Some second ->
        py_getitem branches second = Some (plan_of body Done) ->
        plan_mutator branches branch_choice (branch_handler branch_msg)
          (List.length body + 4 + n) s =
        prefix_trace (held (mkMsg "checkpoint" None :: body ++ [c]))
          (plan_mutator branches branch_choice (branch_handler branch_msg) n
             (mkState [PlanGen rest] None
                      (mkWorld false (2 + calls (env s))))))
    /\ (branch_choice (S (calls (env s))) = None ->
        plan_mutator branches branch_choice (branch_handler branch_msg)
          (3 + n) s =
        (held [mkMsg "checkpoint" None],
         Aborted AttributeError (mkWorld true (2 + calls (env s))))).
Proof.
  intros branches branch_choice branch_msg p0 s c rest first n
         Hr Hs He Hc H1.
  destruct (about_to_yield _ _ _ _ _ _ _ Hr Hs He) as [-> Hl].
  apply String.eqb_eq in Hc. split.
  - intros second body H2 Hb.
    exact (substitution_run _ _ _ c rest _ first second body n Hc Hl H1 H2 Hb).
  - intros H2. exact (null_run _ _ _ c rest _ first n Hc Hl H1 H2).
Qed.

Lemma second_choice_decides_witness :
  plan_mutator scenario_branches once_choice (branch_handler "checkpoint")
    3 (initial scenario_plan) =
  (held [mkMsg "checkpoint" None],
   Aborted AttributeError (mkWorld true 2)).
Proof.
  exact (proj2 (second_choice_decides scenario_branches once_choice
                  "checkpoint" scenario_plan (initial scenario_plan)
                  Checkpoint (plan_of [Move "A"; Checkpoint; Move "B"] Done)
                  0%Z 0%nat (reach_initial _ _ _ _) eq_refl eq_refl eq_refl
                  eq_refl)
           eq_refl).
Defined.

(** * The recovery helpers *)

(** C5. [pick_recover] answers None whatever the sensors read: its body
    returns before the sampling.  With the first imager inserted and 25
    samples of 0 under a floor of 0.1 the selector of the specification
    answers the index 0. *)
Theorem pick_recover_disabled :
  (forall yag1 yag2 threshold, make_pick_recover yag1 yag2 threshold = None)
  /\ pick_recover_spec dark_yag out_yag [1 # 10; 1 # 10]%Q = Some 0%Z.
Proof. split; reflexivity. Qed.

(** C7. A recovery plan that can be built scans in direction +1 when the
    motor is strictly below the center and in direction -1 otherwise, also
    when it is at the center; with center 240, from 100 it is +1 and from 300
    it is -1. *)
Theorem recover_direction :
  (forall yags yag_index mot threshold center get_signal y,
      py_getitem yags yag_index = Some y ->
      let r := make_homs_recover yags yag_index mot threshold center
                 get_signal in
      ((position mot < center)%Q -> direction_of r = Some 1%Z)
      /\ ((center <= position mot)%Q -> direction_of r = Some (-1)%Z))
  /\ direction_of (make_homs_recover [dark_yag; out_yag] 0
                     (mkMotor "m1h" 100) (1 # 10) 240 get_thresh_signal)
     = Some 1%Z
  /\ direction_of (make_homs_recover [dark_yag; out_yag] 0
                     (mkMotor "m1h" 300) (1 # 10) 240 get_thresh_signal)
     = Some (-1)%Z
  /\ direction_of (make_homs_recover [dark_yag; out_yag] 0
                     (mkMotor "m1h" 240) (1 # 10) 240 get_thresh_signal)
     = Some (-1)%Z.
Proof.
  split; [|repeat split; reflexivity].
  intros yags yag_index mot threshold center get_signal y Hy r; subst r.
  unfold make_homs_recover. rewrite Hy. cbn [direction_of scan_direction].
  split.
  - intros Hlt. now rewrite (proj1 (Qlt_alt _ _) Hlt).
  - intros Hle. destruct (position mot ?= center)%Q eqn:Hcmp; try reflexivity.
    exfalso. exact (Qlt_not_le _ _ (proj2 (Qlt_alt _ _) Hcmp) Hle).
Qed.

Lemma recover_direction_witness :
  direction_of (make_homs_recover [dark_yag; out_yag] 1
                  (mkMotor "m2h" 50) (1 # 10) (10237 # 100) get_thresh_signal)
  = Some 1%Z.
Proof.
  refine (proj1 (proj1 recover_direction [dark_yag; out_yag] 1%Z
                   (mkMotor "m2h" 50) (1 # 10)%Q (10237 # 100)%Q
                   get_thresh_signal out_yag eq_refl) _).
  reflexivity.
Defined.

(** * The orchestrator *)

Lemma dict_get_update d other k :
  dict_get (dict_update d other) k =
  match dict_get other k with
  | Some v => Some v
  | None => dict_get d k
  end.
Proof.
  unfold dict_update. induction other as [|[k' v] other IH]; simpl.
  - reflexivity.
  - now destruct (String.eqb k k').
Qed.

Lemma flipped_goal_fixed (g : Q) : (480 - g == g)%Q <-> (g == 240)%Q.
Proof. split; intros H; lra. Qed.

(** C10. [homs_skywalker] gives [skywalker] the goals [480 - g]; the 'goals'
    entry of the metadata for the run is the goals as they were passed in
    (unless the caller's own [md] names other goals), and the two lists are
    equal only when every goal is 240. *)
Theorem homs_goals_flipped :
  forall m1h m2h goals y1 y2 gradients tolerances averages timeout
         has_beam_floor md first_steps,
    let r := homs_skywalker m1h m2h goals y1 y2 gradients tolerances averages
               timeout has_beam_floor md first_steps in
    skywalker_goals r = map (fun g => 480 - g)%Q goals
    /\ dict_get (run_md r) "goals" =
       match dict_get (match md with Some d => d | None => [] end) "goals" with
       | Some v => Some v
       | None => Some (VNums goals)
       end
    /\ (goals_equal (skywalker_goals r) goals <->
        Forall (fun g => g == 240)%Q goals).
Proof.
  intros m1h m2h goals y1 y2 gradients tolerances averages timeout
         has_beam_floor md first_steps r; subst r.
  unfold homs_skywalker; cbn [skywalker_goals run_md]. split; [|split].
  - reflexivity.
  - rewrite dict_get_update. reflexivity.
  - unfold goals_equal. induction goals as [|g goals IH]; simpl.
    + split; constructor.
    + split; intros H; inversion H; subst; constructor;
        try (now apply flipped_goal_fixed); now apply IH.
Qed.

(** * Paths *)

(** C8. [prune_path] on a path of the store gives a new path whose devices
    are those of the original that are not excluded, all of them devices of
    the original; the original path, like every object that was there, is as
    it was. *)
Theorem prune_path_exclusion :
  forall h path exclude p,
    nth_error h path = Some p ->
    exists h' path' p',
      prune_path h path exclude = Some (h', path')
      /\ nth_error h' path' = Some p'
      /\ (forall d, In d (devices p') <->
                    In d (devices p) /\ ~ In d exclude)
      /\ nth_error h' path = Some p
      /\ (forall a, a < List.length h -> nth_error h' a = nth_error h a).
Proof.
  intros h path exclude p Hp. unfold prune_path. rewrite Hp.
  eexists _, _, _. split; [reflexivity|]. split; [|split; [|split]].
  - rewrite nth_error_app2 by lia. rewrite Nat.sub_diag. reflexivity.
  - intros d. cbn [devices]. rewrite filter_In. unfold excluded.
    rewrite negb_true_iff, <- not_true_iff_false, existsb_exists.
    split; intros [Hin Hex]; split; try assumption.
    + intros Hd. apply Hex. exists d. split; [assumption | apply Nat.eqb_refl].
    + intros (x & Hx & Heq). apply Nat.eqb_eq in Heq. now subst x.
  - rewrite nth_error_app1; [assumption|].
    apply nth_error_Some. now rewrite Hp.
  - intros a Ha. now rewrite nth_error_app1.
Qed.

Lemma prune_path_exclusion_witness :
  exists h' path' p',
    prune_path [mkPath [1; 2; 3; 4; 5]] 0 [1; 3; 5] = Some (h', path')
    /\ nth_error h' path' = Some p'
    /\ (forall d, In d (devices p') <->
                  In d [1; 2; 3; 4; 5] /\ ~ In d [1; 3; 5])
    /\ nth_error h' 0 = Some (mkPath [1; 2; 3; 4; 5])
    /\ (forall a, a < 1 -> nth_error h' a = nth_error [mkPath [1; 2; 3; 4; 5]] a).
Proof.
  exact (prune_path_exclusion [mkPath [1; 2; 3; 4; 5]] 0 [1; 3; 5]
           (mkPath [1; 2; 3; 4; 5]) eq_refl).
Defined.

(** * The whole run *)

Lemma plan_msgs_length p : List.length (plan_msgs p) = plan_length p.
Proof. induction p; simpl; congruence. Qed.

Lemma py_getitem_In {A : Type} (l : list A) i x :
  py_getitem l i = Some x -> In x l.
Proof.
  unfold py_getitem. destruct (0 <=? i)%Z.
  - apply nth_error_In.
  - destruct (- Z.of_nat (List.length l) <=? i)%Z; [apply nth_error_In|].
    discriminate.
Qed.

(** The indices Python accepts for a list of length [len] are those from
    [-len] up to [len - 1]. *)
Lemma py_getitem_None {A : Type} (l : list A) i :
  py_getitem l i = None <->
  (i < - Z.of_nat (List.length l) \/ Z.of_nat (List.length l) <= i)%Z.
Proof.
  unfold py_getitem.
  destruct (Z.leb_spec 0 i) as [Hi|Hi].
  - rewrite nth_error_None. lia.
  - destruct (Z.leb_spec (- Z.of_nat (List.length l)) i) as [Hj|Hj].
    + rewrite nth_error_None. lia.
    + split; [lia | reflexivity].
Qed.

Lemma longest_ge branches b :
  In b branches -> plan_length b <= longest branches.
Proof.
  induction branches as [|b' rest IH]; simpl; [tauto|].
  intros [->|Hin]; [lia | specialize (IH Hin); lia].
Qed.

Section WholeRun.

Variable branches : list plan.
Variable branch_choice : nat -> option Z.
Variable branch_msg : string.

Local Abbreviation run :=
  (plan_mutator branches branch_choice (branch_handler branch_msg)).
Local Abbreviation whole := (stream branches branch_choice branch_msg).

(** The handling of one message of the primary plan, whatever the plan goes
    on as. *)
Lemma run_at_message P m g on_send on_throw F :
  (forall w, plan_send P w = YieldNew (OMsg m) g w) ->
  (forall w n, lock w = false ->
     run (F + n) (mkState [g] None w) = on_send (calls w)) ->
  (forall e w n, lock w = false ->
     run (F + n) (mkState [g] (Some e) w) = on_throw e (calls w)) ->
  forall w n, lock w = false ->
    run (4 + longest branches + (F + n)) (mkState [PlanGen P] None w) =
    at_message branches branch_choice branch_msg m (calls w) on_send on_throw.
Proof.
  intros HP Hsend Hthrow w n Hl. set (L := longest branches).
  change (4 + L + (F + n))%nat with (S (3 + L + (F + n))).
  rewrite (bottom_yields _ _ _ P m g w _ Hl (HP w)). unfold at_message.
  destruct (String.eqb (command m) branch_msg).
  - destruct (branch_choice (calls w)) as [first|] eqn:H1.
    + destruct (branch_choice (S (calls w))) as [i|] eqn:H2.
      * destruct (py_getitem branches i) as [b|] eqn:Hb.
        -- pose proof (longest_ge _ _ (py_getitem_In _ _ _ Hb)) as Hlen.
           fold L in Hlen.
           replace (3 + L + (F + n))%nat
             with (1 + (plan_length b + S (S (L - plan_length b + (F + n)))))%nat
             by lia.
           rewrite (detour_branch _ _ _ m g (calls w) first i b _ H1 H2 Hb).
           unfold plan_ending. destruct (plan_end b) as [e|].
           ++ rewrite branch_raises.
              replace (S (L - plan_length b + (F + n)))
                with (F + (S (L - plan_length b) + n))%nat by lia.
              now rewrite Hthrow.
           ++ change (S (S (L - plan_length b + (F + n))))
                with (2 + (L - plan_length b + (F + n)))%nat.
              rewrite branch_returns.
              replace (L - plan_length b + (F + n))%nat
                with (F + (L - plan_length b + n))%nat by lia.
              now rewrite Hsend.
        -- replace (3 + L + (F + n))%nat
             with (2 + (F + (1 + L + n)))%nat by lia.
           rewrite (detour_index _ _ _ m g (calls w) first i _ H1 H2 Hb).
           now rewrite Hthrow.
      * replace (3 + L + (F + n))%nat
          with (2 + (1 + L + (F + n)))%nat by lia.
        exact (detour_null _ _ _ m g (calls w) first _ H1 H2).
    + replace (3 + L + (F + n))%nat
        with (2 + (F + (1 + L + n)))%nat by lia.
      rewrite (detour_none _ _ _ m g (calls w) _ H1).
      now rewrite Hsend.
  - replace (3 + L + (F + n))%nat with (F + (3 + L + n))%nat by lia.
    now rewrite Hsend.
Qed.

(** The step-by-step run of the primary plan [p], from a state with the lock
    free, is [stream p]. *)
Lemma run_stream p :
  forall w n, lock w = false ->
  run (enough_fuel branches p + n) (mkState [PlanGen p] None w) =
  whole p (calls w).
Proof.
  induction p as [|e|m k IHk|m k IHk catches h IHh]; intros w n Hl.
  - destruct w as [l c]; simpl in Hl; subst l. reflexivity.
  - destruct w as [l c]; simpl in Hl; subst l. reflexivity.
  - replace (enough_fuel branches (Yield m k) + n)%nat
      with (4 + longest branches + (enough_fuel branches k + n))%nat
      by (unfold enough_fuel; cbn [plan_depth]; lia).
    apply (run_at_message (Yield m k) m (PlanGen k)); trivial.
    intros e w' n' Hl'. destruct w' as [l c]; simpl in Hl'; subst l.
    reflexivity.
  - set (C := (4 + longest branches)%nat).
    set (F := S (Nat.max (plan_depth k) (plan_depth h) * C)).
    replace (enough_fuel branches (YieldTry m k catches h) + n)%nat
      with (4 + longest branches + (F + n))%nat
      by (unfold enough_fuel, F; cbn [plan_depth]; fold C; lia).
    assert (Hk : forall j, exists j',
               (F + j = enough_fuel branches k + j')%nat).
    { intros j.
      exists ((Nat.max (plan_depth k) (plan_depth h) - plan_depth k) * C + j)%nat.
      unfold F, enough_fuel. fold C. nia. }
    assert (Hh : forall j, exists j',
               (F + j = enough_fuel branches h + j')%nat).
    { intros j.
      exists ((Nat.max (plan_depth k) (plan_depth h) - plan_depth h) * C + j)%nat.
      unfold F, enough_fuel. fold C. nia. }
    apply (run_at_message (YieldTry m k catches h) m (TryGen k catches h));
      trivial.
    + intros w' n' Hl'. rewrite try_resume.
      destruct (Hk n') as (j' & ->). now apply IHk.
    + intros e w' n' Hl'.
      change (F + n')%nat
        with (S (Nat.max (plan_depth k) (plan_depth h) * C + n')).
      rewrite thrown_try.
      change (S (Nat.max (plan_depth k) (plan_depth h) * C + n'))
        with (F + n')%nat.
      destruct (catches e).
      * destruct (Hh n') as (j' & ->). now apply IHh.
      * destruct w' as [l c]; simpl in Hl'; subst l. reflexivity.
Qed.

End WholeRun.

Lemma snd_emit o b t : snd (emit o b t) = snd t.
Proof. reflexivity. Qed.

Lemma snd_prefix_trace evs t : snd (prefix_trace evs t) = snd t.
Proof. reflexivity. Qed.

Section StreamFacts.

Variable branches : list plan.
Variable branch_choice : nat -> option Z.
Variable branch_msg : string.

(** A trace that ends with the lock free unless the handler's
    AttributeError ended it, after at most [2 * bound] more selector calls
    than the [n] made before. *)
Local Abbreviation ends_well bound t n :=
  (match snd t with
   | Returned w => lock w = false /\ n <= calls w <= n + 2 * bound
   | Aborted e w =>
       (lock w = true -> e = AttributeError)
       /\ n <= calls w <= n + 2 * bound
   | _ => False
   end).

Lemma at_message_final m on_send on_throw bound :
  (forall j, ends_well bound (on_send j) j) ->
  (forall e j, ends_well bound (on_throw e j) j) ->
  forall n,
    ends_well ((if String.eqb (command m) branch_msg then 1 else 0) + bound)
              (at_message branches branch_choice branch_msg m n
                 on_send on_throw) n.
Proof.
  intros Hs Ht n. unfold at_message.
  destruct (String.eqb (command m) branch_msg).
  - destruct (branch_choice n).
    + destruct (branch_choice (S n)) as [i|].
      * destruct (py_getitem branches i) as [b|]; rewrite snd_prefix_trace.
        -- destruct (plan_end b) as [e|].
           ++ specialize (Ht e (2 + n)%nat).
              destruct (snd (on_throw e (2 + n)%nat)); try tauto;
                (split; [tauto | lia]).
           ++ rewrite snd_emit. specialize (Hs (2 + n)%nat).
              destruct (snd (on_send (2 + n)%nat)); try tauto;
                (split; [tauto | lia]).
        -- specialize (Ht IndexError (2 + n)%nat).
           destruct (snd (on_throw IndexError (2 + n)%nat)); try tauto;
             (split; [tauto | lia]).
      * simpl. split; [reflexivity | lia].
    + rewrite snd_emit. specialize (Hs (S n)).
      destruct (snd (on_send (S n))); try tauto; (split; [tauto | lia]).
  - rewrite snd_emit. specialize (Hs n).
    destruct (snd (on_send n)); try tauto; (split; [tauto | lia]).
Qed.

Lemma ends_well_le (t : trace) n b b' :
  b <= b' -> ends_well b t n -> ends_well b' t n.
Proof.
  intros Hb. destruct (snd t); try tauto; intros [H1 H2];
    (split; [tauto | lia]).
Qed.

(** Where a whole run ends. *)
Lemma stream_final p :
  forall n,
    ends_well (triggers branch_msg p)
              (stream branches branch_choice branch_msg p n) n.
Proof.
  induction p as [|e|m k IHk|m k IHk catches h IHh]; intros n;
    cbn [stream triggers].
  - simpl. split; [reflexivity | lia].
  - simpl. split; [discriminate | lia].
  - apply at_message_final; [exact IHk|].
    intros e j. simpl. split; [discriminate | lia].
  - apply at_message_final.
    + intros j. apply (ends_well_le _ _ (triggers branch_msg k)); [lia|].
      apply IHk.
    + intros e j. destruct (catches e).
      * apply (ends_well_le _ _ (triggers branch_msg h)); [lia|]. apply IHh.
      * simpl. split; [discriminate | lia].
Qed.

(** Without a trigger command in the primary plan nothing is asked of the
    selector and nothing is inserted. *)
Lemma stream_no_trigger p :
  triggers branch_msg p = 0 ->
  forall n,
    stream branches branch_choice branch_msg p n =
    (map (fun m => (OMsg m, false)) (plan_msgs p),
     match plan_end p with
     | None => Returned (mkWorld false n)
     | Some e => Aborted e (mkWorld false n)
     end).
Proof.
  induction p as [|e|m k IHk|m k IHk catches h _];
    cbn [triggers stream plan_msgs plan_end map];
    intros Ht n; try reflexivity; unfold at_message;
    (destruct (String.eqb (command m) branch_msg); [discriminate|]);
    rewrite IHk by lia; reflexivity.
Qed.

Lemma messages_emit o b t :
  messages (fst (emit o b t)) = o :: messages (fst t).
Proof. reflexivity. Qed.

Lemma messages_prefix body t :
  messages (fst (prefix_trace (held body) t)) =
  map OMsg body ++ messages (fst t).
Proof.
  unfold messages, prefix_trace, held. cbn [fst].
  now rewrite map_app, map_map.
Qed.

(** A whole run of a plan with no [try] that returns has yielded out every
    message of the plan, in order; in front of a trigger command there may
    be one detour, the new checkpoint and the messages of a branch. *)
Lemma stream_weave p :
  unguarded p ->
  forall n w,
    snd (stream branches branch_choice branch_msg p n) = Returned w ->
    exists detours,
      Forall2 (fun d m =>
                 d = [] \/
                 (command m = branch_msg /\
                  exists b, In b branches /\ plan_end b = None /\
                            d = mkMsg "checkpoint" None :: plan_msgs b))
              detours (plan_msgs p)
      /\ messages (fst (stream branches branch_choice branch_msg p n)) =
         map OMsg (weave detours (plan_msgs p)).
Proof.
  induction p as [|e|m k IH|m k _ catches h _]; cbn [unguarded];
    intros Hu n w; cbn [stream plan_msgs]; try tauto.
  - intros _. exists []. split; [constructor | reflexivity].
  - discriminate.
  - unfold at_message.
    destruct (String.eqb (command m) branch_msg) eqn:Hm.
    + apply String.eqb_eq in Hm. destruct (branch_choice n).
      * destruct (branch_choice (S n)) as [i|]; [|discriminate].
        destruct (py_getitem branches i) as [b|] eqn:Hb; [|discriminate].
        rewrite snd_prefix_trace.
        destruct (plan_end b) eqn:He; [discriminate|].
        rewrite snd_emit. intros Hw.
        destruct (IH Hu _ _ Hw) as (ds & Hds & Heq).
        exists ((mkMsg "checkpoint" None :: plan_msgs b) :: ds). split.
        -- constructor; [|assumption]. right. split; [assumption|].
           exists b. split; [|split; [assumption | reflexivity]].
           exact (py_getitem_In _ _ _ Hb).
        -- rewrite messages_prefix, messages_emit, Heq. cbn [weave].
           now rewrite map_app.
      * rewrite snd_emit. intros Hw.
        destruct (IH Hu _ _ Hw) as (ds & Hds & Heq).
        exists ([] :: ds). split.
        -- constructor; [now left | assumption].
        -- rewrite messages_emit, Heq. reflexivity.
    + rewrite snd_emit. intros Hw.
      destruct (IH Hu _ _ Hw) as (ds & Hds & Heq).
      exists ([] :: ds). split.
      * constructor; [now left | assumption].
      * rewrite messages_emit, Heq. reflexivity.
Qed.

End StreamFacts.

(** * More on the branching engine *)

(** X1. Every run of [branching_plan] comes to an end: with
    [enough_fuel] it returns or aborts with an exception, it never waits for
    the lock, and fuel beyond that changes nothing. *)
Theorem branching_plan_terminates :
  forall branches branch_choice branch_msg p n,
    let t := branching_plan branches branch_choice branch_msg p
               (enough_fuel branches p + n) in
    t = branching_plan branches branch_choice branch_msg p
          (enough_fuel branches p)
    /\ ((exists w, snd t = Returned w) \/ (exists e w, snd t = Aborted e w)).
Proof.
  intros branches branch_choice branch_msg p n t; subst t.
  unfold branching_plan, initial.
  rewrite <- (Nat.add_0_r (enough_fuel branches p)) at 2.
  rewrite !run_stream by reflexivity. split; [reflexivity|].
  pose proof (stream_final branches branch_choice branch_msg p 0) as H.
  cbn [calls]. destruct (snd (stream _ _ _ p 0)); try tauto; eauto.
Qed.

(** X2. When the run of a primary plan that has no [try] around its yields
    returns, the output is the primary plan's messages, all of them and in
    their order, each with a detour in front of it that is either empty or,
    for a trigger command only, the new checkpoint followed by all the
    messages of one of the branches, a branch that returns. *)
Theorem primary_order_kept :
  forall branches branch_choice branch_msg p n w,
    let t := branching_plan branches branch_choice branch_msg p
               (enough_fuel branches p + n) in
    unguarded p ->
    snd t = Returned w ->
    exists detours,
      Forall2 (fun d m =>
                 d = [] \/
                 (command m = branch_msg /\
                  exists b, In b branches /\ plan_end b = None /\
                            d = mkMsg "checkpoint" None :: plan_msgs b))
              detours (plan_msgs p)
      /\ messages (fst t) = map OMsg (weave detours (plan_msgs p)).
Proof.
  intros branches branch_choice branch_msg p n w t; subst t.
  unfold branching_plan, initial. rewrite run_stream by reflexivity.
  intros Hu. now apply stream_weave.
Qed.

Lemma primary_order_kept_witness :
  exists detours,
    Forall2 (fun d m =>
               d = [] \/
               (command m = "checkpoint" /\
                exists b, In b scenario_branches /\ plan_end b = None /\
                          d = mkMsg "checkpoint" None :: plan_msgs b))
            detours [Checkpoint; Move "A"; Checkpoint; Move "B"]
    /\ messages (fst (branching_plan scenario_branches scenario_choice
                        "checkpoint" scenario_plan 21)) =
       map OMsg (weave detours [Checkpoint; Move "A"; Checkpoint; Move "B"]).
Proof.
  exact (primary_order_kept scenario_branches scenario_choice "checkpoint"
           scenario_plan 0 (mkWorld false 3) I eq_refl).
Defined.

(** X3. The selector is called at most twice for each trigger command of
    the primary plan, and for nothing else: not for other commands and not
    for the commands of a branch. *)
Theorem selector_calls_bounded :
  forall branches branch_choice branch_msg p n,
    match snd (branching_plan branches branch_choice branch_msg p
                 (enough_fuel branches p + n)) with
    | Returned w | Aborted _ w => calls w <= 2 * triggers branch_msg p
    | _ => False
    end.
Proof.
  intros branches branch_choice branch_msg p n.
  unfold branching_plan, initial. rewrite run_stream by reflexivity.
  pose proof (stream_final branches branch_choice branch_msg p 0) as H.
  cbn [calls]. destruct (snd (stream _ _ _ p 0)); try tauto; lia.
Qed.

(** X4. The lock is free when the run returns, and also when it aborts,
    unless it aborts with the AttributeError of [branch_handler]. *)
Theorem lock_free_at_end :
  forall branches branch_choice branch_msg p n,
    match snd (branching_plan branches branch_choice branch_msg p
                 (enough_fuel branches p + n)) with
    | Returned w => lock w = false
    | Aborted e w => lock w = true -> e = AttributeError
    | _ => False
    end.
Proof.
  intros branches branch_choice branch_msg p n.
  unfold branching_plan, initial. rewrite run_stream by reflexivity.
  pose proof (stream_final branches branch_choice branch_msg p 0) as H.
  cbn [calls]. destruct (snd (stream _ _ _ p 0)); tauto.
Qed.

(** X5. A primary plan without a trigger command comes out as it is,
    whatever the selector and the branches are: the selector is never
    called and the lock never taken. *)
Theorem no_trigger_transparent :
  forall branches branch_choice branch_msg p n,
    triggers branch_msg p = 0 ->
    branching_plan branches branch_choice branch_msg p
      (enough_fuel branches p + n) =
    (map (fun m => (OMsg m, false)) (plan_msgs p),
     match plan_end p with
     | None => Returned (mkWorld false 0)
     | Some e => Aborted e (mkWorld false 0)
     end).
Proof.
  intros branches branch_choice branch_msg p n Ht.
  unfold branching_plan, initial. rewrite run_stream by reflexivity.
  now apply stream_no_trigger.
Qed.

Lemma no_trigger_transparent_witness :
  branching_plan scenario_branches scenario_choice "checkpoint"
    (plan_of [Move "A"; Move "B"] Done) 11 =
  ([(OMsg (Move "A"), false); (OMsg (Move "B"), false)],
   Returned (mkWorld false 0)).
Proof.
  exact (no_trigger_transparent scenario_branches scenario_choice "checkpoint"
           (plan_of [Move "A"; Move "B"] Done) 0 eq_refl).
Defined.

(** X6. When the selector's second answer at a trigger command is an index
    outside the range of [branches] (below [-len] or from [len] up),
    [branches[choice]] raises IndexError right after the new checkpoint: the
    lock is released and the error is thrown into the primary plan at the
    yield of the trigger command, which is not yielded out.  At a yield
    outside any [try] the run aborts with IndexError; at a yield inside a
    [try] whose except clause catches it the run goes on with the handler,
    and aborts with IndexError otherwise.  The rest of the primary plan is
    not run in any of these cases. *)
Theorem bad_index_aborts :
  forall branches branch_choice branch_msg p0 s c rest first i n,
    reachable branches branch_choice branch_msg p0 s ->
    exception s = None ->
    command c = branch_msg ->
    branch_choice (calls (env s)) = Some first ->
    branch_choice (S (calls (env s))) = Some i ->
    (i < - Z.of_nat (List.length branches)
     \/ Z.of_nat (List.length branches) <= i)%Z ->
    (plan_stack s = [PlanGen (Yield c rest)] ->
     plan_mutator branches branch_choice (branch_handler branch_msg)
       (4 + n) s =
     (held [mkMsg "checkpoint" None],
      Aborted IndexError (mkWorld false (2 + calls (env s)))))
    /\ (forall catches h,
        plan_stack s = [PlanGen (YieldTry c rest catches h)] ->
        plan_mutator branches branch_choice (branch_handler branch_msg)
          (4 + n) s =
        prefix_trace (held [mkMsg "checkpoint" None])
          (if catches IndexError
           then plan_mutator branches branch_choice
                  (branch_handler branch_msg) (S n)
                  (mkState [PlanGen h] None
                     (mkWorld false (2 + calls (env s))))
           else ([], Aborted IndexError
                       (mkWorld false (2 + calls (env s)))))).
Proof.
  intros branches branch_choice branch_msg p0 s c rest first i n
         Hr He Hc H1 H2 Hi.
  apply String.eqb_eq in Hc. apply py_getitem_None in Hi. split.
  - intros Hs. destruct (about_to_resume _ _ _ _ _ _ Hr Hs He) as [-> Hl].
    exact (index_run _ _ _ c rest _ first i n Hc Hl H1 H2 Hi).
  - intros catches h Hs.
    destruct (about_to_resume _ _ _ _ _ _ Hr Hs He) as [-> Hl].
    exact (index_try_run _ _ _ c rest catches h _ first i n Hc Hl H1 H2 Hi).
Qed.

Lemma bad_index_aborts_witness :
  plan_mutator scenario_branches (fun _ => Some 1%Z)
    (branch_handler "checkpoint") 4 (initial scenario_plan) =
  (held [mkMsg "checkpoint" None], Aborted IndexError (mkWorld false 2))
  /\ plan_mutator scenario_branches (fun _ => Some 1%Z)
       (branch_handler "checkpoint") 5 (initial guarded_plan) =
     (held [mkMsg "checkpoint" None] ++ [(OMsg (Move "B"), false)],
      Returned (mkWorld false 2)).
Proof.
  split.
  - refine (proj1 (bad_index_aborts scenario_branches (fun _ => Some 1%Z)
                     "checkpoint" scenario_plan (initial scenario_plan)
                     Checkpoint (plan_of [Move "A"; Checkpoint; Move "B"] Done)
                     1%Z 1%Z 0%nat
                     (reach_initial _ _ _ _) eq_refl eq_refl eq_refl eq_refl _)
                  eq_refl).
    right. simpl. lia.
  - refine (proj2 (bad_index_aborts scenario_branches (fun _ => Some 1%Z)
                     "checkpoint" guarded_plan (initial guarded_plan)
                     Checkpoint (plan_of [Move "A"] Done)
                     1%Z 1%Z 1%nat
                     (reach_initial _ _ _ _) eq_refl eq_refl eq_refl eq_refl _)
                  (fun _ => true) (plan_of [Move "B"] Done) eq_refl).
    right. simpl. lia.
Defined.



(** * Run engines, suspenders and the composed plan *)

Lemma install_all RE pvs :
  let RE' :=
    fold_left (fun RE pv => install_suspender RE (PvAlarmSuspend pv "MAJOR"))
              pvs RE in
  suspenders RE' =
  suspenders RE ++ map (fun pv => PvAlarmSuspend pv "MAJOR") pvs
  /\ subscriptions RE' = subscriptions RE.
Proof.
  revert RE. induction pvs as [|pv pvs IH]; intros RE; simpl.
  - now rewrite app_nil_r.
  - destruct (IH (install_suspender RE (PvAlarmSuspend pv "MAJOR")))
      as [Hs Hsub].
    simpl in Hs, Hsub. rewrite Hs, Hsub. simpl.
    now rewrite <- app_assoc.
Qed.

(** X8. [lcls_RE] keeps the suspenders and subscriptions the engine
    already has and installs, after them and in this order, the energy floor
    0.01, the rate floor 2 and one MAJOR alarm suspender for each PV given;
    with no PVs (None or the empty list) it installs the two floors only. *)
Theorem lcls_RE_installs :
  forall alarming_pvs RE,
    let before := match RE with Some r => r | None => new_RunEngine end in
    let pvs := match alarming_pvs with Some l => l | None => [] end in
    suspenders (lcls_RE alarming_pvs RE) =
    suspenders before
    ++ [BeamEnergySuspendFloor (1 # 100); BeamRateSuspendFloor 2]
    ++ map (fun pv => PvAlarmSuspend pv "MAJOR") pvs
    /\ subscriptions (lcls_RE alarming_pvs RE) = subscriptions before
    /\ msg_hook (lcls_RE alarming_pvs RE) = Some "log.debug".
Proof.
  intros alarming_pvs RE before pvs. unfold lcls_RE. fold before. fold pvs.
  cbn [suspenders subscriptions msg_hook].
  destruct (install_all
              (install_suspender
                 (install_suspender before (BeamEnergySuspendFloor (1 # 100)))
                 (BeamRateSuspendFloor 2)) pvs) as [Hs Hsub].
  simpl in Hs, Hsub. rewrite Hs, Hsub. cbn [suspenders subscriptions].
  split; [|split; reflexivity].
  now rewrite <- !app_assoc.
Qed.

(** X9. [get_lightpath_suspender] watches the last imager of the list and
    excludes the ones before it, in their order; on an empty list it raises
    IndexError. *)
Theorem lightpath_suspender_split :
  get_lightpath_suspender [] = inl IndexError
  /\ forall front last,
      get_lightpath_suspender (front ++ [last]) =
      inr (LightpathSuspender last front).
Proof.
  split; [reflexivity|]. intros front last.
  unfold get_lightpath_suspender, py_getitem, py_slice_to.
  rewrite length_app. cbn [List.length].
  replace (0 <=? -1)%Z with false by reflexivity.
  replace (-1 <? 0)%Z with true by reflexivity.
  destruct (Z.leb_spec (- Z.of_nat (List.length front + 1)) (-1)) as [_|H];
    [|lia].
  replace (Z.to_nat (Z.of_nat (List.length front + 1) + -1))
    with (List.length front + 0)%nat by lia.
  rewrite nth_error_app2 by lia.
  replace (List.length front + 0 - List.length front)%nat with 0%nat by lia.
  cbn [nth_error].
  replace (Z.to_nat (Z.max 0 (Z.of_nat (List.length front + 1) + -1)))
    with (List.length front + 0)%nat by lia.
  rewrite firstn_app_2. cbn [firstn]. now rewrite app_nil_r.
Qed.
